(** * app_error.h: the common application error handler

    A shallow embedding of [components/libraries/util/app_error.h]: the fault
    identifiers, the two payload records, the two reporting functions
    [app_error_log] and [app_error_print], and the macros
    [APP_ERROR_HANDLER], [APP_ERROR_CHECK] and [APP_ERROR_CHECK_BOOL].

    C statements become computations in a small monad that threads the
    program state, collects the externally visible events (calls of [printf],
    of the logger, of the error handlers, and loads through the [info]
    pointer) and can trap on a load through an invalid pointer. *)

From Stdlib Require Import ZArith Lia.
From stdpp Require Import base list gmap strings.

Local Open Scope Z_scope.

(** ** Machine integers *)

(** Conversion to [uint32_t] (and to [unsigned int], 32 bits wide on the
    target): reduction modulo 2^32. *)
Definition to_uint32 (v : Z) : Z := v mod 2 ^ 32.

(** ** Fault identifiers *)

Definition NRF_FAULT_ID_SDK_RANGE_START : Z := 0x00004000.
Definition NRF_FAULT_ID_SDK_ERROR : Z := NRF_FAULT_ID_SDK_RANGE_START + 1.
Definition NRF_FAULT_ID_SDK_ASSERT : Z := NRF_FAULT_ID_SDK_RANGE_START + 2.

(** ** Payload records *)

(** [p_file_name] is a pointer, kept as an address; [0] is the null pointer. *)
Record error_info_t : Type := {
  line_num : Z;
  p_file_name : Z;
  err_code : Z
}.

Record assert_info_t : Type := {
  line_num' : Z;
  p_file_name' : Z
}.

(** ** Memory *)

(** What an address can hold: one of the two records, or the characters of a
    null-terminated string. *)
Inductive object : Type :=
  | ErrorInfo (e : error_info_t)
  | AssertInfo (a : assert_info_t)
  | CString (s : string).

Inductive field : Type := F_line_num | F_p_file_name | F_err_code.

(** The member access [info->f] after the cast of [info] to a pointer to
    either record type: the two records share their first two members, so a
    read of [line_num] or [p_file_name] succeeds on either record through
    either cast; [err_code] exists in [error_info_t] only. A read through an
    address that holds no record is undefined. *)
Definition load_field (info : Z) (f : field) (m : gmap Z object) : option Z :=
  match m !! info with
  | Some (ErrorInfo e) =>
      match f with
      | F_line_num => Some (line_num e)
      | F_p_file_name => Some (p_file_name e)
      | F_err_code => Some (err_code e)
      end
  | Some (AssertInfo a) =>
      match f with
      | F_line_num => Some (line_num' a)
      | F_p_file_name => Some (p_file_name' a)
      | F_err_code => None
      end
  | Some (CString _) => None
  | None => None
  end.

(** ** Events *)

(** A variadic argument of [printf] or of the logger: an unsigned integer
    (for [%u] and [%X]) or a pointer to characters (for [%s]). *)
Inductive arg : Type :=
  | ArgUInt (v : Z)
  | ArgStr (p : Z).

Inductive event : Type :=
  | ReadField (info : Z) (f : field)
  | Printf (fmt : string) (args : list arg)
  | NrfLogInfo (fmt : string) (args : list arg)
  | AppErrorHandler (error_code line : Z) (file : string)
  | AppErrorHandlerBare (error_code : Z).

(** ** The monad of C statements *)

Inductive outcome (St A : Type) : Type :=
  | Ret (a : A) (s : St)
  | Trap.
Arguments Ret {St A} a s.
Arguments Trap {St A}.

Definition M (St A : Type) : Type := St -> list event * outcome St A.

Definition ret {St A : Type} (a : A) : M St A := fun s => ([], Ret a s).

Definition bind {St A B : Type} (c : M St A) (k : A -> M St B) : M St B :=
  fun s =>
    match c s with
    | (t1, Ret a s1) =>
        match k a s1 with
        | (t2, o) => (t1 ++ t2, o)
        end
    | (t1, Trap) => (t1, Trap)
    end.

Definition emit {St : Type} (ev : event) : M St unit := fun s => ([ev], Ret tt s).

Declare Scope cstmt_scope.
Delimit Scope cstmt_scope with cstmt.
Notation "x <- c ;; k" := (bind c (fun x => k))
  (at level 100, c at next level, right associativity) : cstmt_scope.
Notation "c ;; k" := (bind c (fun _ => k))
  (at level 100, right associativity) : cstmt_scope.
Local Open Scope cstmt_scope.

Definition trace {St A : Type} (r : list event * outcome St A) : list event := fst r.
Definition result {St A : Type} (r : list event * outcome St A) : outcome St A := snd r.

(** A run with one more event in front. *)
Definition preceded_by {St A : Type} (ev : event) (r : list event * outcome St A)
  : list event * outcome St A :=
  (ev :: fst r, snd r).

(** The load of a member through the [info] pointer. *)
Definition load (info : Z) (f : field) : M (gmap Z object) Z :=
  fun m =>
    match load_field info f m with
    | Some v => ([ReadField info f], Ret v m)
    | None => ([ReadField info f], Trap)
    end.

(** External functions, known by their declarations only: a call is an
    event. *)
Definition printf {St : Type} (fmt : string) (args : list arg) : M St unit :=
  emit (Printf fmt args).

Definition NRF_LOG_INFO {St : Type} (fmt : string) (args : list arg) : M St unit :=
  emit (NrfLogInfo fmt args).

Definition app_error_handler {St : Type} (error_code line_num : Z) (p_file_name : string)
  : M St unit :=
  emit (AppErrorHandler (to_uint32 error_code) (to_uint32 line_num) p_file_name).

Definition app_error_handler_bare {St : Type} (error_code : Z) : M St unit :=
  emit (AppErrorHandlerBare (to_uint32 error_code)).

(** Carriage return and line feed, the ["\r\n"] that ends every format. *)
Definition CRLF : string :=
  String (Ascii.ascii_of_nat 13) (String (Ascii.ascii_of_nat 10) EmptyString).

(** ** The reporting functions *)

(** [app_error_log]: a [switch] on [id] with the two cases and no default.
    Every [NRF_LOG_INFO] statement of the function is commented out in the
    source; what is left of each case is the test of [p_file_name] with an
    empty body. *)
Definition app_error_log (id pc info : Z) : M (gmap Z object) unit :=
  if id =? NRF_FAULT_ID_SDK_ASSERT then
    file <- load info F_p_file_name ;;
    if negb (file =? 0) then ret tt else ret tt
  else if id =? NRF_FAULT_ID_SDK_ERROR then
    file <- load info F_p_file_name ;;
    if negb (file =? 0) then ret tt else ret tt
  else ret tt.

(** [app_error_print]: four unconditional [printf] calls, then the same
    [switch]. [tmp] is an [unsigned int]; each assignment to it converts. *)
Definition app_error_print (id pc info : Z) : M (gmap Z object) unit :=
  let tmp := to_uint32 id in
  printf ("app_error_print():" +:+ CRLF) [] ;;
  printf ("Fault identifier:  0x%X" +:+ CRLF) [ArgUInt tmp] ;;
  let tmp := to_uint32 pc in
  printf ("Program counter:   0x%X" +:+ CRLF) [ArgUInt tmp] ;;
  let tmp := to_uint32 info in
  printf ("Fault information: 0x%X" +:+ CRLF) [ArgUInt tmp] ;;
  if id =? NRF_FAULT_ID_SDK_ASSERT then
    line <- load info F_line_num ;;
    let tmp := to_uint32 line in
    printf ("Line Number: %u" +:+ CRLF) [ArgUInt tmp] ;;
    file <- load info F_p_file_name ;;
    printf ("File Name:   %s" +:+ CRLF) [ArgStr file]
  else if id =? NRF_FAULT_ID_SDK_ERROR then
    line <- load info F_line_num ;;
    let tmp := to_uint32 line in
    printf ("Line Number: %u" +:+ CRLF) [ArgUInt tmp] ;;
    file <- load info F_p_file_name ;;
    printf ("File Name:   %s" +:+ CRLF) [ArgStr file] ;;
    code <- load info F_err_code ;;
    let tmp := to_uint32 code in
    printf ("Error Code:  0x%X" +:+ CRLF) [ArgUInt tmp]
  else ret tt.

(** [app_error_log] with the commented-out [NRF_LOG_INFO] statements put
    back, as the source text has them between the comment marks. The colour
    macros come from the logger's header and are taken as given strings. *)
Section Documented_log.

Variables NRF_LOG_COLOR_RED NRF_LOG_COLOR_WHITE NRF_LOG_COLOR_DEFAULT : string.

Definition app_error_log_as_documented (id pc info : Z) : M (gmap Z object) unit :=
  if id =? NRF_FAULT_ID_SDK_ASSERT then
    NRF_LOG_INFO (NRF_LOG_COLOR_RED +:+ CRLF +:+ "*** ASSERTION FAILED ***" +:+ CRLF) [] ;;
    file <- load info F_p_file_name ;;
    (if negb (file =? 0) then
       line <- load info F_line_num ;;
       NRF_LOG_INFO (NRF_LOG_COLOR_WHITE +:+ "Line Number: %u" +:+ CRLF)
                    [ArgUInt (to_uint32 line)] ;;
       file <- load info F_p_file_name ;;
       NRF_LOG_INFO ("File Name:   %s" +:+ CRLF) [ArgStr file]
     else ret tt) ;;
    NRF_LOG_INFO (NRF_LOG_COLOR_DEFAULT +:+ CRLF) []
  else if id =? NRF_FAULT_ID_SDK_ERROR then
    NRF_LOG_INFO (NRF_LOG_COLOR_RED +:+ CRLF +:+ "*** APPLICATION ERROR *** " +:+ CRLF
                  +:+ NRF_LOG_COLOR_WHITE) [] ;;
    file <- load info F_p_file_name ;;
    (if negb (file =? 0) then
       line <- load info F_line_num ;;
       NRF_LOG_INFO ("Line Number: %u" +:+ CRLF) [ArgUInt (to_uint32 line)] ;;
       file <- load info F_p_file_name ;;
       NRF_LOG_INFO ("File Name:   %s" +:+ CRLF) [ArgStr file]
     else ret tt) ;;
    code <- load info F_err_code ;;
    NRF_LOG_INFO ("Error Code:  0x%X" +:+ CRLF +:+ NRF_LOG_COLOR_DEFAULT +:+ CRLF)
                 [ArgUInt (to_uint32 code)]
  else ret tt.

End Documented_log.

(** ** The macros *)

(** The place of a macro expansion: what [__LINE__] and [__FILE__] stand for
    there. *)
Record call_site : Type := {
  LINE : Z;
  FILE : string
}.

Section Macros.

(** The program state the argument expressions read and update. *)
Context {St : Type}.

(** [NRF_SUCCESS] comes from a header that is not part of this file. *)
Variable NRF_SUCCESS : Z.

(** Whether the build defines [DEBUG]. *)
Variable DEBUG : bool.

Definition APP_ERROR_HANDLER (site : call_site) (ERR_CODE : M St Z) : M St unit :=
  if DEBUG then
    c <- ERR_CODE ;; app_error_handler c (LINE site) (FILE site)
  else
    c <- ERR_CODE ;; app_error_handler_bare c.

(** The call of [APP_ERROR_HANDLER] in the body of the [if] is commented
    out in the source; the body is the empty statement. *)
Definition APP_ERROR_CHECK (ERR_CODE : M St Z) : M St unit :=
  v <- ERR_CODE ;;
  let LOCAL_ERR_CODE := to_uint32 v in
  if negb (LOCAL_ERR_CODE =? NRF_SUCCESS) then ret tt else ret tt.

Definition APP_ERROR_CHECK_BOOL (site : call_site) (BOOLEAN_VALUE : M St Z) : M St unit :=
  v <- BOOLEAN_VALUE ;;
  let LOCAL_BOOLEAN_VALUE := to_uint32 v in
  if LOCAL_BOOLEAN_VALUE =? 0 then APP_ERROR_HANDLER site (ret 0) else ret tt.

(** [APP_ERROR_CHECK] with the commented-out call put back, as its
    documentation comment describes the macro. *)
Definition APP_ERROR_CHECK_as_documented (site : call_site) (ERR_CODE : M St Z)
  : M St unit :=
  v <- ERR_CODE ;;
  let LOCAL_ERR_CODE := to_uint32 v in
  if negb (LOCAL_ERR_CODE =? NRF_SUCCESS)
  then APP_ERROR_HANDLER site (ret LOCAL_ERR_CODE)
  else ret tt.

End Macros.

(** ** Observations on a trace *)

(** The error codes handed to the escalation path, in order. *)
Definition escalation (ev : event) : option Z :=
  match ev with
  | AppErrorHandler c _ _ => Some c
  | AppErrorHandlerBare c => Some c
  | _ => None
  end.

Definition escalations (t : list event) : list Z := omap escalation t.

(** The calls that write to a sink: the logger or [printf]. *)
Definition is_sink_write (ev : event) : bool :=
  match ev with
  | Printf _ _ | NrfLogInfo _ _ => true
  | _ => false
  end.

Definition sink_writes (t : list event) : list event := List.filter is_sink_write t.

Definition is_log_write (ev : event) : bool :=
  match ev with
  | NrfLogInfo _ _ => true
  | _ => false
  end.

Definition log_writes (t : list event) : list event := List.filter is_log_write t.

Definition is_load (ev : event) : bool :=
  match ev with
  | ReadField _ _ => true
  | _ => false
  end.

Definition loads (t : list event) : list event := List.filter is_load t.

(** The pointers handed to a [%s] conversion, in order. *)
Definition string_args (ev : event) : list Z :=
  match ev with
  | Printf _ args | NrfLogInfo _ args =>
      omap (fun a => match a with ArgStr p => Some p | ArgUInt _ => None end) args
  | _ => []
  end.

Definition formatted_as_string (t : list event) : list Z := concat (map string_args t).

Definition is_sdk_fault (id : Z) : bool :=
  (id =? NRF_FAULT_ID_SDK_ASSERT) || (id =? NRF_FAULT_ID_SDK_ERROR).

(** ** The terminal fault entry point *)

(** Modelled from the spec: the body of [app_error_save_and_stop], which this
    header declares and does not define. The spec has it persist the triple
    [id], [pc], [info] and then wait for ever; the model is a machine with
    three control points, of which it never reaches the third. *)
Inductive control : Type := Entered | Waiting | Returned.

Record fault_state : Type := {
  at_point : control;
  retained : option (Z * Z * Z)
}.

Definition app_error_save_and_stop_step (id pc info : Z) (c : fault_state) : fault_state :=
  match at_point c with
  | Entered => {| at_point := Waiting; retained := Some (id, pc, info) |}
  | Waiting => c
  | Returned => c
  end.

Fixpoint app_error_save_and_stop (steps : nat) (id pc info : Z) (c : fault_state)
  : fault_state :=
  match steps with
  | O => c
  | S n => app_error_save_and_stop n id pc info (app_error_save_and_stop_step id pc info c)
  end.

Definition on_entry : fault_state := {| at_point := Entered; retained := None |}.

Definition has_returned (c : fault_state) : bool :=
  match at_point c with
  | Returned => true
  | _ => false
  end.

(** ** Concrete memories *)

(** A populated [error_info_t] at [0x20000100] with line 42, file ["foo.c"]
    and code 7. *)
Definition mem_foo : gmap Z object :=
  <[ 0x20000100 := ErrorInfo {| line_num := 42; p_file_name := 0x00030000; err_code := 7 |} ]>
  (<[ 0x00030000 := CString "foo.c" ]> ∅).

(** A populated [assert_info_t] at [0x20000200] with line 10 and file
    ["bar.c"]. *)
Definition mem_bar : gmap Z object :=
  <[ 0x20000200 := AssertInfo {| line_num' := 10; p_file_name' := 0x00030010 |} ]>
  (<[ 0x00030010 := CString "bar.c" ]> ∅).

(** An [error_info_t] at [0x20000100] whose file name is the null pointer. *)
Definition mem_null_file : gmap Z object :=
  <[ 0x20000100 := ErrorInfo {| line_num := 42; p_file_name := 0; err_code := 7 |} ]> ∅.

(** The post-increment of a counter that is the whole program state:
    [counter++] yields the old value and stores the successor. *)
Definition post_increment : M Z Z := fun counter => ([], Ret counter (counter + 1)).

Definition final_state {St A : Type} (r : list event * outcome St A) : option St :=
  match result r with
  | Ret _ s => Some s
  | Trap => None
  end.

(** The four [printf] calls that open [app_error_print]. *)
Definition header_lines (id pc info : Z) : list event :=
  [ Printf ("app_error_print():" +:+ CRLF) [];
    Printf ("Fault identifier:  0x%X" +:+ CRLF) [ArgUInt (to_uint32 id)];
    Printf ("Program counter:   0x%X" +:+ CRLF) [ArgUInt (to_uint32 pc)];
    Printf ("Fault information: 0x%X" +:+ CRLF) [ArgUInt (to_uint32 info)] ].

(** The events of [app_error_print] up to and including the file name line,
    shared by the two cases of its [switch]. *)
Definition location_lines (info line file : Z) : list event :=
  [ ReadField info F_line_num;
    Printf ("Line Number: %u" +:+ CRLF) [ArgUInt (to_uint32 line)];
    ReadField info F_p_file_name;
    Printf ("File Name:   %s" +:+ CRLF) [ArgStr file] ].

(** The event of one expansion of [APP_ERROR_HANDLER] with code [c]. *)
Definition handler_call (DEBUG : bool) (site : call_site) (c : Z) : event :=
  if DEBUG
  then AppErrorHandler (to_uint32 c) (to_uint32 (LINE site)) (FILE site)
  else AppErrorHandlerBare (to_uint32 c).

(** A statement executed [n] times in a row. *)
Fixpoint repeated {St : Type} (n : nat) (c : M St unit) : M St unit :=
  match n with
  | O => ret tt
  | S k => c ;; repeated k c
  end.

(** The addresses read through, in order. *)
Definition reads_through (t : list event) : list Z :=
  omap (fun ev => match ev with ReadField a _ => Some a | _ => None end) t.

(** The events that end the SDK error case of [app_error_print]. *)
Definition error_code_line (info code : Z) : list event :=
  [ ReadField info F_err_code;
    Printf ("Error Code:  0x%X" +:+ CRLF) [ArgUInt (to_uint32 code)] ].

(** * Properties *)

(** ** Machine integers *)

Lemma to_uint32_small (v : Z) : 0 <= v < 2 ^ 32 -> to_uint32 v = v.
Proof. intros Hv. unfold to_uint32. apply Z.mod_small. exact Hv. Qed.

Lemma to_uint32_range (v : Z) : 0 <= to_uint32 v < 2 ^ 32.
Proof. unfold to_uint32. apply Z.mod_pos_bound. reflexivity. Qed.

(** ** Laws of the monad *)

Lemma bind_ret_l {St A B : Type} (a : A) (k : A -> M St B) (s : St) :
  bind (ret a) k s = k a s.
Proof. unfold bind, ret. destruct (k a s) as [t o]. reflexivity. Qed.

Lemma bind_assoc {St A B C : Type} (c : M St A) (k : A -> M St B) (h : B -> M St C)
    (s : St) :
  bind (bind c k) h s = bind c (fun a => bind (k a) h) s.
Proof.
  unfold bind. destruct (c s) as [t1 [a s1|]]; [|reflexivity].
  destruct (k a s1) as [t2 [b s2|]]; [|reflexivity].
  destruct (h b s2) as [t3 o]. rewrite app_assoc. reflexivity.
Qed.

Lemma bind_emit {St B : Type} (ev : event) (k : unit -> M St B) (s : St) :
  bind (emit ev) k s = preceded_by ev (k tt s).
Proof. unfold bind, emit, preceded_by. destruct (k tt s) as [t o]. reflexivity. Qed.

Lemma bind_load {B : Type} (info : Z) (f : field) (k : Z -> M (gmap Z object) B)
    (m : gmap Z object) :
  bind (load info f) k m =
    match load_field info f m with
    | Some v => preceded_by (ReadField info f) (k v m)
    | None => ([ReadField info f], Trap)
    end.
Proof.
  unfold bind, load, preceded_by.
  destruct (load_field info f m) as [v|]; [|reflexivity].
  destruct (k v m) as [t o]. reflexivity.
Qed.

(** A record in memory answers a read of either of the two shared members. *)
Lemma load_field_shared_members (info : Z) (m : gmap Z object) :
  is_Some (load_field info F_p_file_name m) <-> is_Some (load_field info F_line_num m).
Proof.
  unfold load_field.
  destruct (m !! info) as [[e|a|s]|]; split; intros H; try exact H; eauto;
    destruct H as [v Hv]; discriminate.
Qed.

(** ** The reporting functions *)

Lemma is_sdk_fault_cases (id : Z) :
  is_sdk_fault id = true <-> id = NRF_FAULT_ID_SDK_ASSERT \/ id = NRF_FAULT_ID_SDK_ERROR.
Proof.
  unfold is_sdk_fault. rewrite orb_true_iff, !Z.eqb_eq. reflexivity.
Qed.

(** What [app_error_log] does, for every input. *)
Lemma app_error_log_unfold (id pc info : Z) (m : gmap Z object) :
  app_error_log id pc info m =
    if is_sdk_fault id then
      match load_field info F_p_file_name m with
      | Some _ => ([ReadField info F_p_file_name], Ret tt m)
      | None => ([ReadField info F_p_file_name], Trap)
      end
    else ([], Ret tt m).
Proof.
  unfold app_error_log, is_sdk_fault.
  destruct (id =? NRF_FAULT_ID_SDK_ASSERT); cbn [orb].
  - rewrite bind_load. destruct (load_field info F_p_file_name m) as [v|]; [|reflexivity].
    destruct (negb (v =? 0)); reflexivity.
  - destruct (id =? NRF_FAULT_ID_SDK_ERROR); [|reflexivity].
    rewrite bind_load. destruct (load_field info F_p_file_name m) as [v|]; [|reflexivity].
    destruct (negb (v =? 0)); reflexivity.
Qed.

(** What [app_error_print] does for an identifier that is neither of the two. *)
Lemma app_error_print_unknown (id pc info : Z) (m : gmap Z object) :
  is_sdk_fault id = false ->
  app_error_print id pc info m = (header_lines id pc info, Ret tt m).
Proof.
  unfold is_sdk_fault. intros [H1 H2]%orb_false_iff.
  unfold app_error_print, printf. rewrite !bind_emit, H1, H2. reflexivity.
Qed.

Lemma app_error_print_assert (pc info line file : Z) (m : gmap Z object) :
  load_field info F_line_num m = Some line ->
  load_field info F_p_file_name m = Some file ->
  app_error_print NRF_FAULT_ID_SDK_ASSERT pc info m =
    (header_lines NRF_FAULT_ID_SDK_ASSERT pc info ++ location_lines info line file, Ret tt m).
Proof.
  intros Hl Hf. unfold app_error_print, printf.
  rewrite !bind_emit.
  replace (NRF_FAULT_ID_SDK_ASSERT =? NRF_FAULT_ID_SDK_ASSERT) with true by reflexivity.
  rewrite bind_load, Hl, bind_emit, bind_load, Hf. reflexivity.
Qed.

Lemma app_error_print_error (pc info line file : Z) (m : gmap Z object) :
  load_field info F_line_num m = Some line ->
  load_field info F_p_file_name m = Some file ->
  app_error_print NRF_FAULT_ID_SDK_ERROR pc info m =
    match load_field info F_err_code m with
    | Some code =>
        (header_lines NRF_FAULT_ID_SDK_ERROR pc info ++ location_lines info line file
           ++ [ReadField info F_err_code;
               Printf ("Error Code:  0x%X" +:+ CRLF) [ArgUInt (to_uint32 code)]],
         Ret tt m)
    | None =>
        (header_lines NRF_FAULT_ID_SDK_ERROR pc info ++ location_lines info line file
           ++ [ReadField info F_err_code],
         Trap)
    end.
Proof.
  intros Hl Hf. unfold app_error_print, printf.
  rewrite !bind_emit.
  replace (NRF_FAULT_ID_SDK_ERROR =? NRF_FAULT_ID_SDK_ASSERT) with false by reflexivity.
  replace (NRF_FAULT_ID_SDK_ERROR =? NRF_FAULT_ID_SDK_ERROR) with true by reflexivity.
  rewrite bind_load, Hl, bind_emit, bind_load, Hf, bind_emit, bind_load.
  destruct (load_field info F_err_code m) as [code|]; reflexivity.
Qed.

Lemma formatted_as_string_header (id pc info : Z) :
  formatted_as_string (header_lines id pc info) = [].
Proof. reflexivity. Qed.

Lemma formatted_as_string_app (t1 t2 : list event) :
  formatted_as_string (t1 ++ t2) = formatted_as_string t1 ++ formatted_as_string t2.
Proof. unfold formatted_as_string. rewrite map_app, concat_app. reflexivity. Qed.

(** [app_error_print] hands the file name pointer of a readable record to a
    [%s] conversion, whatever the pointer is. *)
Lemma app_error_print_formats_file (id pc info file : Z) (m : gmap Z object) :
  is_sdk_fault id = true ->
  load_field info F_p_file_name m = Some file ->
  formatted_as_string (trace (app_error_print id pc info m)) = [file].
Proof.
  intros Hid Hf.
  destruct (proj1 (load_field_shared_members info m) (ex_intro _ file Hf)) as [line Hl].
  apply is_sdk_fault_cases in Hid. destruct Hid as [-> | ->].
  - rewrite (app_error_print_assert pc info line file m Hl Hf).
    unfold trace; cbn [fst]. rewrite formatted_as_string_app. reflexivity.
  - rewrite (app_error_print_error pc info line file m Hl Hf).
    destruct (load_field info F_err_code m) as [code|]; unfold trace; cbn [fst];
      rewrite !formatted_as_string_app; reflexivity.
Qed.

(** With its logger calls put back, [app_error_log] hands the file name to
    [%s] only when the pointer is not null. *)
Lemma app_error_log_as_documented_guards_null (red white default : string)
    (id pc info file : Z) (m : gmap Z object) :
  is_sdk_fault id = true ->
  load_field info F_p_file_name m = Some file ->
  formatted_as_string (trace (app_error_log_as_documented red white default id pc info m))
    = if file =? 0 then [] else [file].
Proof.
  intros Hid Hf.
  destruct (proj1 (load_field_shared_members info m) (ex_intro _ file Hf)) as [line Hl].
  apply is_sdk_fault_cases in Hid.
  unfold app_error_log_as_documented, NRF_LOG_INFO.
  destruct Hid as [-> | ->].
  - replace (NRF_FAULT_ID_SDK_ASSERT =? NRF_FAULT_ID_SDK_ASSERT) with true by reflexivity.
    rewrite bind_emit, bind_load, Hf.
    destruct (file =? 0); cbn [negb].
    + rewrite bind_ret_l. reflexivity.
    + rewrite !bind_assoc, bind_load, Hl, bind_assoc, bind_emit, bind_assoc, bind_load, Hf.
      reflexivity.
  - replace (NRF_FAULT_ID_SDK_ERROR =? NRF_FAULT_ID_SDK_ASSERT) with false by reflexivity.
    replace (NRF_FAULT_ID_SDK_ERROR =? NRF_FAULT_ID_SDK_ERROR) with true by reflexivity.
    rewrite bind_emit, bind_load, Hf.
    destruct (file =? 0); cbn [negb].
    + rewrite bind_ret_l, bind_load.
      destruct (load_field info F_err_code m); reflexivity.
    + rewrite !bind_assoc, bind_load, Hl, bind_assoc, bind_emit, bind_assoc, bind_load, Hf.
      rewrite bind_emit, bind_load.
      destruct (load_field info F_err_code m); reflexivity.
Qed.

(** ** Claims on the fault identifiers and the reporting functions *)

(** C9: the range of SDK fault identifiers starts at 0x00004000, and the two
    identifiers are the range start plus one (0x00004001, the SDK error) and
    the range start plus two (0x00004002, the SDK assertion). *)
Theorem fault_ids_offsets :
  NRF_FAULT_ID_SDK_RANGE_START = 0x00004000 /\
  NRF_FAULT_ID_SDK_ERROR = NRF_FAULT_ID_SDK_RANGE_START + 1 /\
  NRF_FAULT_ID_SDK_ERROR = 0x00004001 /\
  NRF_FAULT_ID_SDK_ASSERT = NRF_FAULT_ID_SDK_RANGE_START + 2 /\
  NRF_FAULT_ID_SDK_ASSERT = 0x00004002.
Proof. repeat split. Qed.

(** C10: for every input, [app_error_log] writes to no sink and leaves the
    memory as it was. For one of the two known identifiers its whole trace
    is the one load of [p_file_name] through [info] (a trap when [info]
    holds no record); for any other identifier the trace is empty, nothing
    is read through [info], and the function returns. *)
Theorem app_error_log_frame (id pc info : Z) (m : gmap Z object) :
  sink_writes (trace (app_error_log id pc info m)) = [] /\
  trace (app_error_log id pc info m)
    = (if is_sdk_fault id then [ReadField info F_p_file_name] else []) /\
  result (app_error_log id pc info m)
    = (if is_sdk_fault id
       then match load_field info F_p_file_name m with
            | Some _ => Ret tt m
            | None => Trap
            end
       else Ret tt m).
Proof.
  rewrite app_error_log_unfold.
  destruct (is_sdk_fault id); [|repeat split].
  destruct (load_field info F_p_file_name m); repeat split.
Qed.

(** C4: for an identifier that is neither the SDK error nor the SDK
    assertion, both reporting functions return without a trap and without a
    load through [info]; [app_error_log] produces no event at all, and
    [app_error_print] produces its unconditional header lines (the banner,
    then the identifier, the program counter and the value of [info]) and
    nothing more. *)
Theorem unknown_id_reports (id pc info : Z) (m : gmap Z object) :
  id <> NRF_FAULT_ID_SDK_ERROR ->
  id <> NRF_FAULT_ID_SDK_ASSERT ->
  app_error_log id pc info m = ([], Ret tt m) /\
  app_error_print id pc info m = (header_lines id pc info, Ret tt m) /\
  loads (trace (app_error_print id pc info m)) = [] /\
  formatted_as_string (trace (app_error_print id pc info m)) = [].
Proof.
  intros He Ha.
  assert (Hid : is_sdk_fault id = false).
  { unfold is_sdk_fault. apply orb_false_iff. split; apply Z.eqb_neq; assumption. }
  rewrite app_error_log_unfold, Hid, (app_error_print_unknown id pc info m Hid).
  repeat split.
Qed.

Lemma unknown_id_reports_witness :
  app_error_log 0x1001 0x000201A4 0 ∅ = ([], Ret tt ∅) /\
  app_error_print 0x1001 0x000201A4 0 ∅ = (header_lines 0x1001 0x000201A4 0, Ret tt ∅) /\
  loads (trace (app_error_print 0x1001 0x000201A4 0 ∅)) = [] /\
  formatted_as_string (trace (app_error_print 0x1001 0x000201A4 0 ∅)) = [].
Proof.
  apply (unknown_id_reports 0x1001 0x000201A4 0 ∅); unfold NRF_FAULT_ID_SDK_ERROR,
    NRF_FAULT_ID_SDK_ASSERT, NRF_FAULT_ID_SDK_RANGE_START; lia.
Defined.

(** C6: the two reporting functions treat the file name differently. For
    either known identifier and any record readable through [info],
    [app_error_log] loads [p_file_name], tests it and hands nothing to a
    string conversion, so no null pointer is ever dereferenced by it;
    [app_error_print] hands [p_file_name] to the [%s] conversion of its file
    name line whatever its value, the null pointer included. *)
Theorem file_name_null_handling_differs (id pc info file : Z) (m : gmap Z object) :
  is_sdk_fault id = true ->
  load_field info F_p_file_name m = Some file ->
  trace (app_error_log id pc info m) = [ReadField info F_p_file_name] /\
  formatted_as_string (trace (app_error_log id pc info m)) = [] /\
  In (Printf ("File Name:   %s" +:+ CRLF) [ArgStr file])
     (trace (app_error_print id pc info m)) /\
  formatted_as_string (trace (app_error_print id pc info m)) = [file].
Proof.
  intros Hid Hf.
  rewrite app_error_log_unfold, Hid, Hf.
  split; [reflexivity|]. split; [reflexivity|].
  split; [|exact (app_error_print_formats_file id pc info file m Hid Hf)].
  destruct (proj1 (load_field_shared_members info m) (ex_intro _ file Hf)) as [line Hl].
  apply is_sdk_fault_cases in Hid. destruct Hid as [-> | ->].
  - rewrite (app_error_print_assert pc info line file m Hl Hf).
    unfold trace; cbn [fst]. apply in_or_app. right. cbn. auto.
  - rewrite (app_error_print_error pc info line file m Hl Hf).
    destruct (load_field info F_err_code m) as [code|]; unfold trace; cbn [fst];
      apply in_or_app; right; apply in_or_app; left; cbn; auto.
Qed.

Lemma file_name_null_handling_differs_witness :
  trace (app_error_log NRF_FAULT_ID_SDK_ERROR 0 0x20000100 mem_null_file)
    = [ReadField 0x20000100 F_p_file_name] /\
  formatted_as_string (trace (app_error_log NRF_FAULT_ID_SDK_ERROR 0 0x20000100 mem_null_file))
    = [] /\
  In (Printf ("File Name:   %s" +:+ CRLF) [ArgStr 0])
     (trace (app_error_print NRF_FAULT_ID_SDK_ERROR 0 0x20000100 mem_null_file)) /\
  formatted_as_string (trace (app_error_print NRF_FAULT_ID_SDK_ERROR 0 0x20000100 mem_null_file))
    = [0].
Proof.
  apply (file_name_null_handling_differs NRF_FAULT_ID_SDK_ERROR 0 0x20000100 0 mem_null_file);
    reflexivity.
Defined.

(** C2: called with the SDK error identifier on the record with line 42,
    file ["foo.c"] and code 7, [app_error_log] writes nothing to the logger:
    its trace is the one load of [p_file_name]. The three fields appear only
    once the commented-out logger calls are put back. On a record whose file
    name is null, the function hands nothing to a string conversion and
    writes no file line. *)
Theorem app_error_log_sdk_error_writes_nothing :
  app_error_log NRF_FAULT_ID_SDK_ERROR 0 0x20000100 mem_foo
    = ([ReadField 0x20000100 F_p_file_name], Ret tt mem_foo) /\
  sink_writes (trace (app_error_log NRF_FAULT_ID_SDK_ERROR 0 0x20000100 mem_foo)) = [] /\
  (forall red white default : string,
     log_writes (trace (app_error_log_as_documented red white default
                          NRF_FAULT_ID_SDK_ERROR 0 0x20000100 mem_foo))
       = [ NrfLogInfo (red +:+ CRLF +:+ "*** APPLICATION ERROR *** " +:+ CRLF +:+ white) [];
           NrfLogInfo ("Line Number: %u" +:+ CRLF) [ArgUInt 42];
           NrfLogInfo ("File Name:   %s" +:+ CRLF) [ArgStr 0x00030000];
           NrfLogInfo ("Error Code:  0x%X" +:+ CRLF +:+ default +:+ CRLF) [ArgUInt 7] ]) /\
  formatted_as_string (trace (app_error_log NRF_FAULT_ID_SDK_ERROR 0 0x20000100 mem_null_file))
    = [] /\
  sink_writes (trace (app_error_log NRF_FAULT_ID_SDK_ERROR 0 0x20000100 mem_null_file)) = [].
Proof.
  split; [reflexivity|]. split; [reflexivity|]. split; [|split; reflexivity].
  intros red white default. reflexivity.
Qed.

(** C7: called with the SDK assertion identifier on the record with line 10
    and file ["bar.c"], [app_error_log] writes nothing to the logger: neither
    the line number nor the file name. The two fields appear only once the
    commented-out logger calls are put back, and no error code field appears
    with them. For every record the function writes no error code field. *)
Theorem app_error_log_sdk_assert_writes_nothing :
  app_error_log NRF_FAULT_ID_SDK_ASSERT 0 0x20000200 mem_bar
    = ([ReadField 0x20000200 F_p_file_name], Ret tt mem_bar) /\
  log_writes (trace (app_error_log NRF_FAULT_ID_SDK_ASSERT 0 0x20000200 mem_bar)) = [] /\
  (forall red white default : string,
     log_writes (trace (app_error_log_as_documented red white default
                          NRF_FAULT_ID_SDK_ASSERT 0 0x20000200 mem_bar))
       = [ NrfLogInfo (red +:+ CRLF +:+ "*** ASSERTION FAILED ***" +:+ CRLF) [];
           NrfLogInfo (white +:+ "Line Number: %u" +:+ CRLF) [ArgUInt 10];
           NrfLogInfo ("File Name:   %s" +:+ CRLF) [ArgStr 0x00030010];
           NrfLogInfo (default +:+ CRLF) [] ]) /\
  (forall (pc info : Z) (m : gmap Z object),
     log_writes (trace (app_error_log NRF_FAULT_ID_SDK_ASSERT pc info m)) = []).
Proof.
  split; [reflexivity|]. split; [reflexivity|]. split.
  - intros red white default. reflexivity.
  - intros pc info m. rewrite app_error_log_unfold.
    replace (is_sdk_fault NRF_FAULT_ID_SDK_ASSERT) with true by reflexivity.
    destruct (load_field info F_p_file_name m); reflexivity.
Qed.

(** ** The macros *)

Section Macro_facts.

Context {St : Type}.
Variables (NRF_SUCCESS : Z) (DEBUG : bool) (site : call_site).

Lemma APP_ERROR_HANDLER_run (c : Z) (s : St) :
  APP_ERROR_HANDLER DEBUG site (ret c) s = ([handler_call DEBUG site c], Ret tt s).
Proof. unfold APP_ERROR_HANDLER, handler_call. destruct DEBUG; reflexivity. Qed.

Lemma APP_ERROR_CHECK_run (e : M St Z) (s : St) :
  APP_ERROR_CHECK NRF_SUCCESS e s =
    match e s with
    | (t, Ret _ s') => (t, Ret tt s')
    | (t, Trap) => (t, Trap)
    end.
Proof.
  unfold APP_ERROR_CHECK, bind.
  destruct (e s) as [t [v s'|]]; [|reflexivity].
  destruct (negb (to_uint32 v =? NRF_SUCCESS)); cbn; rewrite app_nil_r; reflexivity.
Qed.

Lemma APP_ERROR_CHECK_BOOL_run (e : M St Z) (s : St) :
  APP_ERROR_CHECK_BOOL DEBUG site e s =
    match e s with
    | (t, Ret v s') =>
        (t ++ (if to_uint32 v =? 0 then [handler_call DEBUG site 0] else []), Ret tt s')
    | (t, Trap) => (t, Trap)
    end.
Proof.
  unfold APP_ERROR_CHECK_BOOL, bind at 1.
  destruct (e s) as [t [v s'|]]; [|reflexivity].
  destruct (to_uint32 v =? 0); [rewrite APP_ERROR_HANDLER_run|]; reflexivity.
Qed.

Lemma APP_ERROR_CHECK_as_documented_run (e : M St Z) (s : St) :
  APP_ERROR_CHECK_as_documented NRF_SUCCESS DEBUG site e s =
    match e s with
    | (t, Ret v s') =>
        (t ++ (if to_uint32 v =? NRF_SUCCESS then []
               else [handler_call DEBUG site (to_uint32 v)]), Ret tt s')
    | (t, Trap) => (t, Trap)
    end.
Proof.
  unfold APP_ERROR_CHECK_as_documented, bind at 1.
  destruct (e s) as [t [v s'|]]; [|reflexivity].
  destruct (to_uint32 v =? NRF_SUCCESS); cbn [negb];
    [|rewrite APP_ERROR_HANDLER_run]; reflexivity.
Qed.

(** However often [APP_ERROR_CHECK] runs on a value, no call reaches the
    escalation path. *)
Lemma APP_ERROR_CHECK_repeated (n : nat) (v : Z) (s : St) :
  repeated n (APP_ERROR_CHECK NRF_SUCCESS (ret v)) s = ([], Ret tt s).
Proof.
  induction n as [|n IH]; [reflexivity|].
  cbn [repeated]. unfold bind at 1. rewrite APP_ERROR_CHECK_run. cbn. rewrite IH.
  reflexivity.
Qed.

(** [APP_ERROR_CHECK_BOOL] on a value that fits 32 bits escalates exactly
    when the value is zero. *)
Lemma APP_ERROR_CHECK_BOOL_value (v : Z) (s : St) :
  escalations (trace (APP_ERROR_CHECK_BOOL DEBUG site (ret v) s))
    = if to_uint32 v =? 0 then [0] else [].
Proof.
  rewrite APP_ERROR_CHECK_BOOL_run. cbn.
  destruct (to_uint32 v =? 0); [|reflexivity].
  unfold handler_call. destruct DEBUG; reflexivity.
Qed.

End Macro_facts.

(** A condition wider than 32 bits loses its high bits in the conversion to
    [uint32_t]: 2^32 is not zero, and the macro escalates on it. *)
Remark APP_ERROR_CHECK_BOOL_truncates (DEBUG : bool) (site : call_site) :
  escalations (trace (APP_ERROR_CHECK_BOOL DEBUG site (ret (2 ^ 32)) tt)) = [0].
Proof. apply (APP_ERROR_CHECK_BOOL_value DEBUG site (2 ^ 32) tt). Qed.

(** C1: [APP_ERROR_CHECK] on the failure code 1, with 0 as the success
    value, returns without any call of an error handler; so it does on every
    value with every success value, and however often it is repeated. With
    the commented-out call put back, the handler is called once with the
    code 1. *)
Theorem APP_ERROR_CHECK_failure_not_escalated
    (St : Type) (DEBUG : bool) (site : call_site) (s : St) :
  APP_ERROR_CHECK 0 (ret 1) s = ([], Ret tt s) /\
  escalations (trace (APP_ERROR_CHECK 0 (ret 1) s)) = [] /\
  escalations (trace (APP_ERROR_CHECK_as_documented 0 DEBUG site (ret 1) s)) = [1] /\
  (forall (NRF_SUCCESS v : Z) (n : nat),
     escalations (trace (repeated n (APP_ERROR_CHECK NRF_SUCCESS (ret v)) s)) = []).
Proof.
  split; [reflexivity|]. split; [reflexivity|]. split.
  - rewrite APP_ERROR_CHECK_as_documented_run. cbn.
    unfold handler_call. destruct DEBUG; reflexivity.
  - intros NRF_SUCCESS v n. rewrite APP_ERROR_CHECK_repeated. reflexivity.
Qed.

(** C3: for every boolean handed to [APP_ERROR_CHECK_BOOL], the macro calls
    the error handler once with the code zero when the boolean is false, and
    calls no handler when it is true. *)
Theorem APP_ERROR_CHECK_BOOL_escalates_on_false
    (St : Type) (DEBUG : bool) (site : call_site) (b : bool) (s : St) :
  APP_ERROR_CHECK_BOOL DEBUG site (ret (Z.b2z b)) s
    = ((if b then [] else [handler_call DEBUG site 0]), Ret tt s) /\
  escalations (trace (APP_ERROR_CHECK_BOOL DEBUG site (ret (Z.b2z b)) s))
    = (if b then [] else [0]).
Proof.
  split.
  - rewrite APP_ERROR_CHECK_BOOL_run. destruct b; reflexivity.
  - rewrite APP_ERROR_CHECK_BOOL_value. destruct b; reflexivity.
Qed.

(** C5: either check macro evaluates its argument expression exactly once:
    the state it leaves is the state one evaluation of the argument leaves,
    and the events of the argument occur once, followed by at most the
    handler call of the macro itself. With a post-increment of a counter as
    the argument, the counter grows by exactly one. *)
Theorem check_argument_evaluated_once
    (St : Type) (NRF_SUCCESS : Z) (DEBUG : bool) (site : call_site)
    (e : M St Z) (s : St) :
  final_state (APP_ERROR_CHECK NRF_SUCCESS e s) = final_state (e s) /\
  trace (APP_ERROR_CHECK NRF_SUCCESS e s) = trace (e s) /\
  final_state (APP_ERROR_CHECK_BOOL DEBUG site e s) = final_state (e s) /\
  (trace (APP_ERROR_CHECK_BOOL DEBUG site e s) = trace (e s) \/
   trace (APP_ERROR_CHECK_BOOL DEBUG site e s) = trace (e s) ++ [handler_call DEBUG site 0]) /\
  (forall counter : Z,
     final_state (APP_ERROR_CHECK NRF_SUCCESS post_increment counter) = Some (counter + 1) /\
     final_state (APP_ERROR_CHECK_BOOL DEBUG site post_increment counter)
       = Some (counter + 1)).
Proof.
  rewrite APP_ERROR_CHECK_run, APP_ERROR_CHECK_BOOL_run.
  split; [destruct (e s) as [t [v s'|]]; reflexivity|].
  split; [destruct (e s) as [t [v s'|]]; reflexivity|].
  split; [destruct (e s) as [t [v s'|]]; reflexivity|].
  split.
  - destruct (e s) as [t [v s'|]]; [|left; reflexivity].
    destruct (to_uint32 v =? 0); [right; reflexivity|left].
    unfold trace; cbn [fst]. apply app_nil_r.
  - intros counter. rewrite APP_ERROR_CHECK_run, APP_ERROR_CHECK_BOOL_run.
    split; reflexivity.
Qed.

(** ** The terminal fault entry point *)

Lemma app_error_save_and_stop_waits (n : nat) (id pc info : Z) (c : fault_state) :
  at_point c = Waiting -> app_error_save_and_stop n id pc info c = c.
Proof.
  intros Hc. induction n as [|n IH]; [reflexivity|].
  cbn [app_error_save_and_stop]. unfold app_error_save_and_stop_step. rewrite Hc.
  exact IH.
Qed.

(** C8: [app_error_save_and_stop], entered with any triple, the null [info]
    included, has retained the triple [id], [pc], [info] after its first step
    and waits from then on: after no number of steps has it returned. *)
Theorem app_error_save_and_stop_never_returns (id pc info : Z) (n : nat) :
  has_returned (app_error_save_and_stop n id pc info on_entry) = false /\
  app_error_save_and_stop (S n) id pc info on_entry
    = {| at_point := Waiting; retained := Some (id, pc, info) |}.
Proof.
  assert (H : app_error_save_and_stop (S n) id pc info on_entry
              = {| at_point := Waiting; retained := Some (id, pc, info) |}).
  { cbn [app_error_save_and_stop]. apply app_error_save_and_stop_waits. reflexivity. }
  split; [|exact H].
  destruct n as [|n]; [reflexivity|].
  assert (H' : app_error_save_and_stop (S n) id pc info on_entry
              = {| at_point := Waiting; retained := Some (id, pc, info) |}).
  { cbn [app_error_save_and_stop]. apply app_error_save_and_stop_waits. reflexivity. }
  rewrite H'. reflexivity.
Qed.

(** * Further properties of the reporting functions and the macros *)

(** ** [app_error_print], case by case *)

(** The run of [app_error_print] on every input: the header, then for a
    known identifier the reads and lines of its case up to the first read
    that fails. *)
Lemma app_error_print_cases (id pc info : Z) (m : gmap Z object) :
  app_error_print id pc info m =
    if is_sdk_fault id then
      match load_field info F_line_num m with
      | None => (header_lines id pc info ++ [ReadField info F_line_num], Trap)
      | Some line =>
          match load_field info F_p_file_name m with
          | None =>
              (header_lines id pc info
                 ++ [ReadField info F_line_num;
                     Printf ("Line Number: %u" +:+ CRLF) [ArgUInt (to_uint32 line)];
                     ReadField info F_p_file_name], Trap)
          | Some file =>
              if id =? NRF_FAULT_ID_SDK_ASSERT then
                (header_lines id pc info ++ location_lines info line file, Ret tt m)
              else
                match load_field info F_err_code m with
                | Some code =>
                    (header_lines id pc info ++ location_lines info line file
                       ++ error_code_line info code, Ret tt m)
                | None =>
                    (header_lines id pc info ++ location_lines info line file
                       ++ [ReadField info F_err_code], Trap)
                end
          end
      end
    else (header_lines id pc info, Ret tt m).
Proof.
  unfold is_sdk_fault, app_error_print, printf. rewrite !bind_emit.
  destruct (id =? NRF_FAULT_ID_SDK_ASSERT); cbn [orb].
  - rewrite bind_load. destruct (load_field info F_line_num m) as [line|]; [|reflexivity].
    rewrite bind_emit, bind_load.
    destruct (load_field info F_p_file_name m) as [file|]; reflexivity.
  - destruct (id =? NRF_FAULT_ID_SDK_ERROR); [|reflexivity].
    rewrite bind_load. destruct (load_field info F_line_num m) as [line|]; [|reflexivity].
    rewrite bind_emit, bind_load.
    destruct (load_field info F_p_file_name m) as [file|]; [|reflexivity].
    rewrite bind_emit, bind_load.
    destruct (load_field info F_err_code m) as [code|]; reflexivity.
Qed.

Lemma load_field_error_info (info : Z) (e : error_info_t) (m : gmap Z object) :
  m !! info = Some (ErrorInfo e) ->
  load_field info F_line_num m = Some (line_num e) /\
  load_field info F_p_file_name m = Some (p_file_name e) /\
  load_field info F_err_code m = Some (err_code e).
Proof. intros H. unfold load_field. rewrite H. repeat split. Qed.

Lemma load_field_assert_info (info : Z) (a : assert_info_t) (m : gmap Z object) :
  m !! info = Some (AssertInfo a) ->
  load_field info F_line_num m = Some (line_num' a) /\
  load_field info F_p_file_name m = Some (p_file_name' a).
Proof. intros H. unfold load_field. rewrite H. repeat split. Qed.


Lemma escalations_app (t1 t2 : list event) :
  escalations (t1 ++ t2) = escalations t1 ++ escalations t2.
Proof. unfold escalations. apply omap_app. Qed.

(** X1: with the SDK error identifier and [info] at an [error_info_t],
    [app_error_print] returns, leaves the memory as it was, and prints seven
    lines: the four header lines, then the line number, the file name
    pointer and the error code of that record, each read once through
    [info]. *)
Theorem app_error_print_reports_error_info
    (pc info : Z) (e : error_info_t) (m : gmap Z object) :
  m !! info = Some (ErrorInfo e) ->
  app_error_print NRF_FAULT_ID_SDK_ERROR pc info m =
    (header_lines NRF_FAULT_ID_SDK_ERROR pc info
       ++ [ ReadField info F_line_num;
            Printf ("Line Number: %u" +:+ CRLF) [ArgUInt (to_uint32 (line_num e))];
            ReadField info F_p_file_name;
            Printf ("File Name:   %s" +:+ CRLF) [ArgStr (p_file_name e)];
            ReadField info F_err_code;
            Printf ("Error Code:  0x%X" +:+ CRLF) [ArgUInt (to_uint32 (err_code e))] ],
     Ret tt m).
Proof.
  intros H. destruct (load_field_error_info info e m H) as (Hl & Hf & Hc).
  rewrite (app_error_print_error pc info _ _ m Hl Hf), Hc. reflexivity.
Qed.

Lemma app_error_print_reports_error_info_witness :
  app_error_print NRF_FAULT_ID_SDK_ERROR 0 0x20000100 mem_foo =
    (header_lines NRF_FAULT_ID_SDK_ERROR 0 0x20000100
       ++ [ ReadField 0x20000100 F_line_num;
            Printf ("Line Number: %u" +:+ CRLF) [ArgUInt (to_uint32 42)];
            ReadField 0x20000100 F_p_file_name;
            Printf ("File Name:   %s" +:+ CRLF) [ArgStr 0x00030000];
            ReadField 0x20000100 F_err_code;
            Printf ("Error Code:  0x%X" +:+ CRLF) [ArgUInt (to_uint32 7)] ],
     Ret tt mem_foo).
Proof.
  apply (app_error_print_reports_error_info 0 0x20000100
           {| line_num := 42; p_file_name := 0x00030000; err_code := 7 |} mem_foo).
  reflexivity.
Defined.

(** X2: with the SDK assertion identifier and [info] at an [assert_info_t],
    [app_error_print] returns, leaves the memory as it was, and prints six
    lines: the four header lines, then the line number and the file name
    pointer of that record. It reads no error code and prints no error code
    line. *)
Theorem app_error_print_reports_assert_info
    (pc info : Z) (a : assert_info_t) (m : gmap Z object) :
  m !! info = Some (AssertInfo a) ->
  app_error_print NRF_FAULT_ID_SDK_ASSERT pc info m =
    (header_lines NRF_FAULT_ID_SDK_ASSERT pc info
       ++ [ ReadField info F_line_num;
            Printf ("Line Number: %u" +:+ CRLF) [ArgUInt (to_uint32 (line_num' a))];
            ReadField info F_p_file_name;
            Printf ("File Name:   %s" +:+ CRLF) [ArgStr (p_file_name' a)] ],
     Ret tt m).
Proof.
  intros H. destruct (load_field_assert_info info a m H) as (Hl & Hf).
  exact (app_error_print_assert pc info _ _ m Hl Hf).
Qed.

Lemma app_error_print_reports_assert_info_witness :
  app_error_print NRF_FAULT_ID_SDK_ASSERT 0 0x20000200 mem_bar =
    (header_lines NRF_FAULT_ID_SDK_ASSERT 0 0x20000200
       ++ [ ReadField 0x20000200 F_line_num;
            Printf ("Line Number: %u" +:+ CRLF) [ArgUInt (to_uint32 10)];
            ReadField 0x20000200 F_p_file_name;
            Printf ("File Name:   %s" +:+ CRLF) [ArgStr 0x00030010] ],
     Ret tt mem_bar).
Proof.
  apply (app_error_print_reports_assert_info 0 0x20000200
           {| line_num' := 10; p_file_name' := 0x00030010 |} mem_bar).
  reflexivity.
Defined.

(** X3: for arguments that fit 32 bits, every run of [app_error_print]
    starts with the banner and the three lines that print [id], [pc] and
    [info] unchanged, before anything is read through [info]; for a known
    identifier the next event is the read of [line_num], for any other
    identifier there is no next event. *)
Theorem app_error_print_header_first (id pc info : Z) (m : gmap Z object) :
  0 <= id < 2 ^ 32 -> 0 <= pc < 2 ^ 32 -> 0 <= info < 2 ^ 32 ->
  exists rest : list event,
    trace (app_error_print id pc info m) =
      [ Printf ("app_error_print():" +:+ CRLF) [];
        Printf ("Fault identifier:  0x%X" +:+ CRLF) [ArgUInt id];
        Printf ("Program counter:   0x%X" +:+ CRLF) [ArgUInt pc];
        Printf ("Fault information: 0x%X" +:+ CRLF) [ArgUInt info] ] ++ rest /\
    hd_error rest = (if is_sdk_fault id then Some (ReadField info F_line_num) else None).
Proof.
  intros Hid Hpc Hinfo. rewrite app_error_print_cases. unfold header_lines.
  rewrite (to_uint32_small id Hid), (to_uint32_small pc Hpc), (to_uint32_small info Hinfo).
  destruct (is_sdk_fault id).
  - destruct (load_field info F_line_num m) as [line|];
      [|eexists; split; reflexivity].
    destruct (load_field info F_p_file_name m) as [file|];
      [|eexists; split; reflexivity].
    destruct (id =? NRF_FAULT_ID_SDK_ASSERT); [eexists; split; reflexivity|].
    destruct (load_field info F_err_code m) as [code|]; eexists; split; reflexivity.
  - exists []. split; reflexivity.
Qed.

Lemma app_error_print_header_first_witness :
  exists rest : list event,
    trace (app_error_print 0x4001 0x000201A4 0x20000100 mem_foo) =
      [ Printf ("app_error_print():" +:+ CRLF) [];
        Printf ("Fault identifier:  0x%X" +:+ CRLF) [ArgUInt 0x4001];
        Printf ("Program counter:   0x%X" +:+ CRLF) [ArgUInt 0x000201A4];
        Printf ("Fault information: 0x%X" +:+ CRLF) [ArgUInt 0x20000100] ] ++ rest /\
    hd_error rest
      = (if is_sdk_fault 0x4001 then Some (ReadField 0x20000100 F_line_num) else None).
Proof.
  apply (app_error_print_header_first 0x4001 0x000201A4 0x20000100 mem_foo); lia.
Defined.



(** X5: on every input [app_error_print] either returns with the memory as
    it was or traps; it reads through no address but [info], calls neither
    the logger nor an error handler, and the only pointer it ever hands to a
    string conversion is the [p_file_name] it has read through [info]. *)
Theorem app_error_print_frame (id pc info : Z) (m : gmap Z object) :
  (result (app_error_print id pc info m) = Ret tt m \/
   result (app_error_print id pc info m) = Trap) /\
  Forall (fun a => a = info) (reads_through (trace (app_error_print id pc info m))) /\
  log_writes (trace (app_error_print id pc info m)) = [] /\
  escalations (trace (app_error_print id pc info m)) = [] /\
  Forall (fun p => load_field info F_p_file_name m = Some p)
         (formatted_as_string (trace (app_error_print id pc info m))).
Proof.
  rewrite app_error_print_cases.
  destruct (is_sdk_fault id).
  - destruct (load_field info F_line_num m) as [line|];
      [|split; [right; reflexivity|repeat split; repeat constructor]].
    destruct (load_field info F_p_file_name m) as [file|] eqn:Hf;
      [|split; [right; reflexivity|repeat split; repeat constructor]].
    destruct (id =? NRF_FAULT_ID_SDK_ASSERT);
      [split; [left; reflexivity|repeat split; repeat constructor]|].
    destruct (load_field info F_err_code m) as [code|];
      (split; [first [left; reflexivity | right; reflexivity]
              |repeat split; repeat constructor]).
  - split; [left; reflexivity|repeat split; repeat constructor].
Qed.

(** X6: whenever [app_error_print] returns on an input, [app_error_log]
    returns on the same input: the one read of [app_error_log] is among the
    reads of [app_error_print]. *)
Theorem app_error_print_returns_then_log_returns
    (id pc info : Z) (m : gmap Z object) :
  result (app_error_print id pc info m) = Ret tt m ->
  result (app_error_log id pc info m) = Ret tt m.
Proof.
  rewrite app_error_print_cases, app_error_log_unfold.
  destruct (is_sdk_fault id); [|reflexivity].
  destruct (load_field info F_line_num m) as [line|]; [|discriminate].
  destruct (load_field info F_p_file_name m) as [file|]; [|discriminate].
  reflexivity.
Qed.

Lemma app_error_print_returns_then_log_returns_witness :
  result (app_error_log NRF_FAULT_ID_SDK_ERROR 0 0x20000100 mem_foo) = Ret tt mem_foo.
Proof.
  apply (app_error_print_returns_then_log_returns NRF_FAULT_ID_SDK_ERROR 0 0x20000100 mem_foo).
  reflexivity.
Defined.

(** ** [APP_ERROR_HANDLER] and [APP_ERROR_CHECK_BOOL] *)

Lemma APP_ERROR_HANDLER_unfold {St : Type} (DEBUG : bool) (site : call_site)
    (e : M St Z) (s : St) :
  APP_ERROR_HANDLER DEBUG site e s =
    match e s with
    | (t, Ret c s') => (t ++ [handler_call DEBUG site c], Ret tt s')
    | (t, Trap) => (t, Trap)
    end.
Proof.
  unfold APP_ERROR_HANDLER, handler_call, bind, app_error_handler, app_error_handler_bare,
    emit.
  destruct DEBUG; destruct (e s) as [t [c s'|]]; reflexivity.
Qed.

Lemma escalations_handler_call (DEBUG : bool) (site : call_site) (c : Z) :
  escalations [handler_call DEBUG site c] = [to_uint32 c].
Proof. unfold handler_call. destruct DEBUG; reflexivity. Qed.

(** X7: [APP_ERROR_HANDLER] evaluates its argument once and then makes one
    handler call with the value converted to 32 bits, in either build: with
    [DEBUG] the call is to [app_error_handler] with the line and file of the
    expansion, without it to [app_error_handler_bare] with the code alone.
    The codes that reach the escalation path are the same in both builds,
    and an argument that traps leaves no handler call. *)
Theorem APP_ERROR_HANDLER_one_call_either_build
    (St : Type) (DEBUG : bool) (site : call_site) (e : M St Z) (s : St) :
  final_state (APP_ERROR_HANDLER DEBUG site e s) = final_state (e s) /\
  escalations (trace (APP_ERROR_HANDLER true site e s))
    = escalations (trace (APP_ERROR_HANDLER false site e s)) /\
  escalations (trace (APP_ERROR_HANDLER DEBUG site e s))
    = escalations (trace (e s))
        ++ match result (e s) with
           | Ret c _ => [to_uint32 c]
           | Trap => []
           end /\
  (forall c : Z,
     trace (APP_ERROR_HANDLER true site (ret c) s)
       = [AppErrorHandler (to_uint32 c) (to_uint32 (LINE site)) (FILE site)] /\
     trace (APP_ERROR_HANDLER false site (ret c) s) = [AppErrorHandlerBare (to_uint32 c)]).
Proof.
  rewrite !APP_ERROR_HANDLER_unfold.
  destruct (e s) as [t [c s'|]]; unfold trace, result, final_state; cbn [fst snd].
  - rewrite !escalations_app, !escalations_handler_call. repeat split.
  - rewrite app_nil_r. repeat split.
Qed.

(** X8: on a condition value that fits 32 bits, [APP_ERROR_CHECK_BOOL] calls
    the error handler, once and with code zero, exactly when the value is
    zero; every other value, not only one, counts as true. *)
Theorem APP_ERROR_CHECK_BOOL_zero_only
    (St : Type) (DEBUG : bool) (site : call_site) (v : Z) (s : St) :
  0 <= v < 2 ^ 32 ->
  APP_ERROR_CHECK_BOOL DEBUG site (ret v) s
    = ((if v =? 0 then [handler_call DEBUG site 0] else []), Ret tt s).
Proof.
  intros Hv. rewrite APP_ERROR_CHECK_BOOL_run. cbn.
  rewrite (to_uint32_small v Hv). reflexivity.
Qed.

Lemma APP_ERROR_CHECK_BOOL_zero_only_witness :
  APP_ERROR_CHECK_BOOL false {| LINE := 57; FILE := "main.c" |} (ret 0x20) tt
    = ((if 0x20 =? 0 then [handler_call false {| LINE := 57; FILE := "main.c" |} 0] else []),
       Ret tt tt).
Proof.
  apply (APP_ERROR_CHECK_BOOL_zero_only unit false {| LINE := 57; FILE := "main.c" |} 0x20 tt).
  lia.
Defined.

(** X9: the condition of [APP_ERROR_CHECK_BOOL] is converted to 32 bits
    before it is tested, so a condition value that is a non-zero multiple of
    2^32, true as a C condition, makes the macro call the error handler with
    code zero. *)
Theorem APP_ERROR_CHECK_BOOL_wide_condition
    (St : Type) (DEBUG : bool) (site : call_site) (k : Z) (s : St) :
  k <> 0 ->
  k * 2 ^ 32 <> 0 /\
  APP_ERROR_CHECK_BOOL DEBUG site (ret (k * 2 ^ 32)) s
    = ([handler_call DEBUG site 0], Ret tt s).
Proof.
  intros Hk. split; [lia|].
  rewrite APP_ERROR_CHECK_BOOL_run. cbn [ret app].
  replace (to_uint32 (k * 2 ^ 32)) with 0; [reflexivity|].
  unfold to_uint32. symmetry. apply Z.mod_mul. lia.
Qed.

Lemma APP_ERROR_CHECK_BOOL_wide_condition_witness :
  1 * 2 ^ 32 <> 0 /\
  APP_ERROR_CHECK_BOOL true {| LINE := 57; FILE := "main.c" |} (ret (1 * 2 ^ 32)) tt
    = ([handler_call true {| LINE := 57; FILE := "main.c" |} 0], Ret tt tt).
Proof.
  apply (APP_ERROR_CHECK_BOOL_wide_condition unit true {| LINE := 57; FILE := "main.c" |} 1 tt).
  lia.
Defined.
